(** * PyThor: the ODIN protocol engine of [src/pythor/pythor.py]

    A shallow embedding of the class [PyThor]: the frame codec ([pack]),
    the gated transport calls ([write], [read]), the session manager, the
    PIT download and parser, and the flash engine.  Python integers are
    [Z], byte buffers are lists of [byte], a [str] is the list of its code
    points, the [partitions] dict is a [gmap], and every method is a
    computation in a state-and-exception monad over the object's fields and
    the USB bus it talks to. *)

From Stdlib Require Import ZArith Lia Strings.Byte String.
From stdpp Require Import base tactics option list list_numbers gmap.

Local Open Scope Z_scope.

(** ** Python exceptions *)

(** The exceptions the code can raise.  [ValueError] carries the literal
    message of the [raise]; the one formatted message
    (f"Expected LOKE; Got ...") has a constructor of its own. *)
Inductive pyerr : Type :=
| ValueError (msg : string)
| ValueErrorExpectedLOKE (got : list Z)
| USBTimeoutError
| USBError
| StructError
| UnicodeDecodeError
| UnboundLocalError (var : string)
| KeyError (key : list Z)
| TypeError
| ZeroDivisionError
| IndexError.

Inductive result (A : Type) : Type :=
| Ok (a : A)
| Err (e : pyerr).
Arguments Ok {A} a.
Arguments Err {A} e.

Definition rbind {A B} (r : result A) (k : A -> result B) : result B :=
  match r with
  | Ok a => k a
  | Err e => Err e
  end.

(** The error names of the specification, as the code raises them. *)
Definition NoSession : pyerr := ValueError "You need to start a session first".
Definition MagicMismatch : pyerr := ValueError "Magic Number Mismatch".
Definition SessionStartError : pyerr := ValueError "Error starting session".
Definition HandshakeMismatch (got : list Z) : pyerr := ValueErrorExpectedLOKE got.
Definition DeviceNotFound : pyerr := ValueError "Could not find a Samsung device".

(** ** Bytes and integers *)

Abbreviation bytes := (list byte).

Definition Z_of_byte (b : byte) : Z := Z.of_N (Byte.to_N b).

(** The low eight bits of an integer, as a byte. *)
Definition byte_of_Z (z : Z) : byte :=
  match Byte.of_N (Z.to_N (z mod 256)) with
  | Some b => b
  | None => x00
  end.

(** [bytearray(n)] for a non-negative literal [n]. *)
Definition bytearray (n : nat) : bytes := replicate n x00.

(** Python's [//] and [%] on integers: floor division, as [Z.div] and
    [Z.modulo], raising [ZeroDivisionError] on a zero divisor. *)
Definition py_floordiv (a b : Z) : result Z :=
  if b =? 0 then Err ZeroDivisionError else Ok (a / b).
Definition py_mod (a b : Z) : result Z :=
  if b =? 0 then Err ZeroDivisionError else Ok (a mod b).

Definition i32_min : Z := - 2 ^ 31.
Definition i32_max : Z := 2 ^ 31 - 1.
Definition in_i32 (v : Z) : Prop := i32_min <= v <= i32_max.
Definition in_i32b (v : Z) : bool := (i32_min <=? v) && (v <=? i32_max).

(** The four bytes of a 32-bit integer, least significant first (two's
    complement for a negative one).  [struct]'s native order "i" is this
    order on the little-endian hosts the tool runs on. *)
Definition le32 (v : Z) : bytes :=
  [byte_of_Z v; byte_of_Z (v / 2 ^ 8); byte_of_Z (v / 2 ^ 16); byte_of_Z (v / 2 ^ 24)].

Definition le32_unsigned (bs : bytes) : Z :=
  foldr (fun b acc => Z_of_byte b + 256 * acc) 0 bs.

Definition le32_signed (bs : bytes) : Z :=
  let u := le32_unsigned bs in
  if u <? 2 ^ 31 then u else u - 2 ^ 32.

(** [struct.unpack("<I", b)] and [struct.unpack("i", b)]: the buffer must
    hold exactly four bytes. *)
Definition unpack_I (bs : bytes) : result Z :=
  if decide (length bs = 4%nat) then Ok (le32_unsigned bs) else Err StructError.
Definition unpack_i (bs : bytes) : result Z :=
  if decide (length bs = 4%nat) then Ok (le32_signed bs) else Err StructError.

(** [struct.unpack_from(fmt, buf, offset)] for a non-negative offset: four
    bytes must be available from [offset] on. *)
Definition unpack_from_I (buf : bytes) (offset : nat) : result Z :=
  if decide (offset + 4 <= length buf)%nat
  then Ok (le32_unsigned (take 4 (drop offset buf)))
  else Err StructError.

(** [buf[off:off+len(data)] = data] for a slice inside the buffer. *)
Definition splice (buf : bytes) (off : nat) (data : bytes) : bytes :=
  take off buf ++ data ++ drop (off + length data) buf.

(** [PyThor.pack]: [struct.pack_into("i", buf, offset, data)].  The value
    must fit a signed 32-bit integer and the four bytes must fit the
    buffer; a negative offset counts from the end of the buffer.  The
    buffer is mutated in place in Python; here the new buffer is
    returned. *)
Definition pack (data : Z) (offset : Z) (buf : bytes) : result bytes :=
  if negb (in_i32b data) then Err StructError
  else
    let off := if offset <? 0 then Z.of_nat (length buf) + offset else offset in
    if (off <? 0) || (Z.of_nat (length buf) <? off + 4) then Err StructError
    else Ok (splice buf (Z.to_nat off) (le32 data)).

(** [ret[k]] on a byte array. *)
Definition index_bytes (buf : bytes) (k : nat) : result Z :=
  match buf !! k with
  | Some b => Ok (Z_of_byte b)
  | None => Err IndexError
  end.

(** [buf[a:b] = data] on a bytearray, for [0 <= a <= b]: the slice bounds
    are clamped to the length of the buffer, and the buffer grows or
    shrinks when the slice and the data differ in length. *)
Definition slice_assign (buf : bytes) (a b : nat) (data : bytes) : bytes :=
  let a' := Nat.min a (length buf) in
  let b' := Nat.max a' (Nat.min b (length buf)) in
  take a' buf ++ data ++ drop b' buf.

(** ** Text *)

(** A [str] is the list of its code points. *)
Abbreviation pystr := (list Z).

Definition str_of_string (s : string) : pystr :=
  (fun a => Z.of_N (Ascii.N_of_ascii a)) <$> list_ascii_of_string s.

Definition is_cont (b : Z) : bool := (128 <=? b) && (b <=? 191).

(** [bytes.decode("utf-8")] with the default strict error handler: shortest
    form only, no surrogates, nothing above U+10FFFF. *)
Fixpoint utf8_decode_Z (bs : list Z) : option pystr :=
  match bs with
  | [] => Some []
  | b0 :: r0 =>
    if b0 <? 128 then cons b0 <$> utf8_decode_Z r0
    else if (194 <=? b0) && (b0 <=? 223) then
      match r0 with
      | b1 :: r1 =>
        if is_cont b1
        then cons ((b0 - 192) * 64 + (b1 - 128)) <$> utf8_decode_Z r1
        else None
      | _ => None
      end
    else if (224 <=? b0) && (b0 <=? 239) then
      match r0 with
      | b1 :: b2 :: r2 =>
        let lo := if b0 =? 224 then 160 else 128 in
        let hi := if b0 =? 237 then 159 else 191 in
        if (lo <=? b1) && (b1 <=? hi) && is_cont b2
        then cons ((b0 - 224) * 4096 + (b1 - 128) * 64 + (b2 - 128))
               <$> utf8_decode_Z r2
        else None
      | _ => None
      end
    else if (240 <=? b0) && (b0 <=? 244) then
      match r0 with
      | b1 :: b2 :: b3 :: r3 =>
        let lo := if b0 =? 240 then 144 else 128 in
        let hi := if b0 =? 244 then 143 else 191 in
        if (lo <=? b1) && (b1 <=? hi) && is_cont b2 && is_cont b3
        then cons ((b0 - 240) * 262144 + (b1 - 128) * 4096
                   + (b2 - 128) * 64 + (b3 - 128))
               <$> utf8_decode_Z r3
        else None
      | _ => None
      end
    else None
  end.

Definition decode_utf8 (bs : bytes) : result pystr :=
  match utf8_decode_Z (Z_of_byte <$> bs) with
  | Some s => Ok s
  | None => Err UnicodeDecodeError
  end.

(** The characters [str.strip()] removes when called without an argument:
    those for which [str.isspace] holds. *)
Definition py_isspace (c : Z) : bool :=
  ((9 <=? c) && (c <=? 13)) || ((28 <=? c) && (c <=? 32))
  || (c =? 133) || (c =? 160) || (c =? 5760)
  || ((8192 <=? c) && (c <=? 8202))
  || (c =? 8232) || (c =? 8233) || (c =? 8239) || (c =? 8287) || (c =? 12288).

Fixpoint lstrip (p : Z -> bool) (s : pystr) : pystr :=
  match s with
  | [] => []
  | c :: r => if p c then lstrip p r else s
  end.

Definition rstrip (p : Z -> bool) (s : pystr) : pystr :=
  reverse (lstrip p (reverse s)).

(** [s.strip(chars)], with [chars] given as a membership test. *)
Definition strip (p : Z -> bool) (s : pystr) : pystr :=
  rstrip p (lstrip p s).

(** The fixed-width text fields of a PIT entry:
    [.decode("utf-8").strip().strip("\x20").strip("\x00")]. *)
Definition decode_name (field : bytes) : result pystr :=
  rbind (decode_utf8 field) (fun s =>
  Ok (strip (Z.eqb 0) (strip (Z.eqb 32) (strip py_isspace s)))).

(** ** The object and the bus *)

(** One PIT entry: the dict built by [parse_pit], with its twelve keys. *)
Record entry : Type := mkEntry {
  BinaryType : Z;
  DeviceType : Z;
  PartitionID : Z;
  Attributes : Z;
  UpdateAttributes : Z;
  BlockSize : Z;
  BlockCount : Z;
  FileOffset : Z;
  FileSize : Z;
  Partition : pystr;
  FileName : pystr;
  DeltaName : pystr
}.

(** The device object [usb.core.find] returns. *)
Inductive handle : Type := SamsungDevice.

(** The fields of a [PyThor] object.  [flashpacketsize] and [sequencesize]
    are [None] while they still hold the placeholder [int] that [__init__]
    stores in them. *)
Record PyThor : Type := mkPyThor {
  dev : option handle;
  session_started : bool;
  t_flash_enabled : bool;
  flashpacketsize : option Z;
  sequencesize : option Z;
  partitions : gmap pystr entry
}.

(** [PyThor.__init__] *)
Definition init : PyThor :=
  mkPyThor None false false None None ∅.

(** What the device does with the next call on an endpoint. *)
Inductive usb_write_outcome : Type := WriteDone | WriteTimeout | WriteFails.
Inductive usb_read_outcome : Type :=
| Reply (data : bytes)
| ReadTimeout
| ReadFails.

(** What has happened on the host side of the bus, oldest first: a
    transfer to endpoint 0x01, a read request on endpoint 0x81 with its
    timeout, a call of the progress callback with [j] and [parts]
    (for [(j / parts) * 100]) or with 100. *)
Inductive event : Type :=
| Wrote (data : bytes)
| ReadCall (timeout : option Z)
| Progress (j parts : Z)
| ProgressDone.

(** The bus: whether a Samsung device is attached, the outcomes the device
    has in store for the coming writes and reads (a write succeeds and a
    read times out when none is left), and the events so far. *)
Record Usb : Type := mkUsb {
  attached : bool;
  write_script : list usb_write_outcome;
  read_script : list usb_read_outcome;
  trace : list event
}.

Record World : Type := mkWorld {
  self : PyThor;
  usb : Usb
}.

Definition with_self (f : PyThor -> PyThor) (w : World) : World :=
  mkWorld (f (self w)) (usb w).

Definition set_dev (d : option handle) (o : PyThor) : PyThor :=
  mkPyThor d (session_started o) (t_flash_enabled o) (flashpacketsize o)
    (sequencesize o) (partitions o).
Definition set_session_started (b : bool) (o : PyThor) : PyThor :=
  mkPyThor (dev o) b (t_flash_enabled o) (flashpacketsize o)
    (sequencesize o) (partitions o).
Definition set_t_flash_enabled (b : bool) (o : PyThor) : PyThor :=
  mkPyThor (dev o) (session_started o) b (flashpacketsize o)
    (sequencesize o) (partitions o).
Definition set_sizes (fps ss : Z) (o : PyThor) : PyThor :=
  mkPyThor (dev o) (session_started o) (t_flash_enabled o) (Some fps)
    (Some ss) (partitions o).
Definition set_partitions (m : gmap pystr entry) (o : PyThor) : PyThor :=
  mkPyThor (dev o) (session_started o) (t_flash_enabled o) (flashpacketsize o)
    (sequencesize o) m.

Definition log (e : event) (u : Usb) : Usb :=
  mkUsb (attached u) (write_script u) (read_script u) (trace u ++ [e]).

(** ** The monad of methods *)

Definition M (A : Type) : Type := World -> result A * World.

Definition ret {A} (a : A) : M A := fun w => (Ok a, w).
Definition raise {A} (e : pyerr) : M A := fun w => (Err e, w).
Definition bind {A B} (m : M A) (k : A -> M B) : M B :=
  fun w =>
    match m w with
    | (Ok a, w') => k a w'
    | (Err e, w') => (Err e, w')
    end.
Definition lift {A} (r : result A) : M A := fun w => (r, w).
Definition gets {A} (f : PyThor -> A) : M A := fun w => (Ok (f (self w)), w).
Definition modify (f : PyThor -> PyThor) : M unit :=
  fun w => (Ok tt, with_self f w).
(** [try: m except ...: h e] *)
Definition try_except {A} (m : M A) (h : pyerr -> M A) : M A :=
  fun w =>
    match m w with
    | (Ok a, w') => (Ok a, w')
    | (Err e, w') => h e w'
    end.

Declare Scope py_scope.
Delimit Scope py_scope with py.
Notation "x <- m ;; k" := (bind m (fun x => k))
  (at level 100, m at next level, right associativity) : py_scope.
Notation "m ;; k" := (bind m (fun _ => k))
  (at level 100, right associativity) : py_scope.
Local Open Scope py_scope.

(** ** The transport *)

(** [self.dev.write(0x1, data)] *)
Definition dev_write (data : bytes) : M unit :=
  fun w =>
    let u := usb w in
    match write_script u with
    | WriteTimeout :: rest =>
      (Err USBTimeoutError, mkWorld (self w) (mkUsb (attached u) rest (read_script u) (trace u)))
    | WriteFails :: rest =>
      (Err USBError, mkWorld (self w) (mkUsb (attached u) rest (read_script u) (trace u)))
    | WriteDone :: rest =>
      (Ok tt, mkWorld (self w) (mkUsb (attached u) rest (read_script u) (trace u ++ [Wrote data])))
    | [] =>
      (Ok tt, mkWorld (self w) (log (Wrote data) u))
    end.

(** [self.dev.read(0x81, 0x1000, timeout)]: at most 0x1000 bytes. *)
Definition dev_read (timeout : option Z) : M bytes :=
  fun w =>
    let u := usb w in
    let t := trace u ++ [ReadCall timeout] in
    match read_script u with
    | Reply data :: rest =>
      (Ok (take 4096 data), mkWorld (self w) (mkUsb (attached u) (write_script u) rest t))
    | ReadTimeout :: rest =>
      (Err USBTimeoutError, mkWorld (self w) (mkUsb (attached u) (write_script u) rest t))
    | ReadFails :: rest =>
      (Err USBError, mkWorld (self w) (mkUsb (attached u) (write_script u) rest t))
    | [] =>
      (Err USBTimeoutError, mkWorld (self w) (mkUsb (attached u) (write_script u) [] t))
    end.

(** [PyThor.connect]: the handle is assigned before the check;
    [set_configuration] on a device that was found is taken to succeed. *)
Definition connect : M unit :=
  fun w =>
    if attached (usb w)
    then (Ok tt, with_self (set_dev (Some SamsungDevice)) w)
    else (Err DeviceNotFound, with_self (set_dev None) w).

(** [PyThor.write] *)
Definition write (data : bytes) : M unit :=
  d <- gets dev;;
  started <- gets session_started;;
  if bool_decide (is_Some d) && started
  then dev_write data
  else raise NoSession.

(** [PyThor.read] *)
Definition read (timeout : option Z) : M bytes :=
  d <- gets dev;;
  started <- gets session_started;;
  if bool_decide (is_Some d) && started
  then
    ret_ <- dev_read timeout;;
    ret ret_
  else raise NoSession.

Notation "x <~ r ;; k" := (rbind r (fun x => k))
  (at level 100, r at next level, right associativity) : py_scope.

(** ** Session manager: the single-frame commands *)

(** [PyThor.send_total_bytes] *)
Definition send_total_bytes (size : Z) : M unit :=
  let buf := bytearray 1024 in
  buf <- lift (pack 0x64 0 buf);;
  buf <- lift (pack 0x02 4 buf);;
  buf <- lift (pack size 8 buf);;
  write buf;;
  read None;;
  ret tt.

(** [PyThor.end_session] *)
Definition end_session : M unit :=
  let buf := bytearray 1024 in
  buf <- lift (pack 0x67 0 buf);;
  buf <- lift (pack 0x00 4 buf);;
  write buf;;
  read None;;
  ret tt.

(** [PyThor.reboot] *)
Definition reboot : M unit :=
  end_session;;
  let buf := bytearray 1024 in
  buf <- lift (pack 0x67 0 buf);;
  buf <- lift (pack 0x01 4 buf);;
  write buf;;
  read None;;
  modify (set_dev None);;
  modify (set_partitions ∅).

(** [PyThor.shutdown] *)
Definition shutdown : M unit :=
  let buf := bytearray 1024 in
  buf <- lift (pack 0x67 0 buf);;
  buf <- lift (pack 0x03 4 buf);;
  write buf;;
  read None;;
  modify (set_dev None);;
  modify (set_partitions ∅).

(** [PyThor.factory_reset] *)
Definition factory_reset : M unit :=
  let buf := bytearray 1024 in
  buf <- lift (pack 0x64 0 buf);;
  buf <- lift (pack 0x07 4 buf);;
  write buf;;
  read (Some 600000);;
  ret tt.

(** [PyThor.enable_tflash] *)
Definition enable_tflash : M unit :=
  let buf := bytearray 1024 in
  buf <- lift (pack 0x64 0 buf);;
  buf <- lift (pack 0x08 4 buf);;
  write buf;;
  read (Some 600000);;
  modify (set_t_flash_enabled true).

(** The handshake tokens.  The code passes the [str] "ODIN" to the USB
    library, which sends its four UTF-8 bytes. *)
Definition ODIN : bytes := list_byte_of_string "ODIN".
Definition LOKE : pystr := str_of_string "LOKE".

(** [PyThor.begin_session] *)
Definition begin_session (resume : bool) : M unit :=
  modify (set_session_started true);;
  (if negb resume then
     ret_ <- try_except (write ODIN;; read None)
               (fun e =>
                  match e with
                  | USBTimeoutError =>
                    modify (set_session_started false);;
                    raise SessionStartError
                  | _ => raise e
                  end);;
     reply <- lift (decode_utf8 ret_);;
     if bool_decide (reply ≠ LOKE)
     then
       got <- lift (decode_utf8 ret_);;
       raise (HandshakeMismatch got)
     else ret tt
   else ret tt);;
  let buf := bytearray 1024 in
  buf <- lift (pack 0x64 0 buf);;
  buf <- lift (pack 0x00 4 buf);;
  buf <- lift (pack 0xFFFF 8 buf);;
  write buf;;
  ret_ <- read None;;
  version <- lift (index_bytes ret_ 6);;
  (if (version =? 0) || (version =? 1)
   then modify (set_sizes 131072 240)
   else modify (set_sizes 1048576 30));;
  let buf := bytearray 1024 in
  buf <- lift (pack 0x64 0 buf);;
  buf <- lift (pack 0x05 4 buf);;
  fps <- gets flashpacketsize;;
  buf <- lift (match fps with Some n => pack n 8 buf | None => Err StructError end);;
  write buf;;
  read None;;
  ret tt.

(** ** PIT codec *)

Definition read_int (reader : bytes) : result (Z * bytes) :=
  v <~ unpack_i (take 4 reader);;
  Ok (v, drop 4 reader).

Definition read_name (reader : bytes) : result (pystr * bytes) :=
  s <~ decode_name (take 32 reader);;
  Ok (s, drop 32 reader).

(** The dict literal of one entry in [parse_pit]: nine integers and three
    names, read in this order from the reader. *)
Definition parse_entry (reader : bytes) : result (entry * bytes) :=
  p <~ read_int reader;; let '(binary_type, reader) := p in
  p <~ read_int reader;; let '(device_type, reader) := p in
  p <~ read_int reader;; let '(partition_id, reader) := p in
  p <~ read_int reader;; let '(attributes, reader) := p in
  p <~ read_int reader;; let '(update_attributes, reader) := p in
  p <~ read_int reader;; let '(block_size, reader) := p in
  p <~ read_int reader;; let '(block_count, reader) := p in
  p <~ read_int reader;; let '(file_offset, reader) := p in
  p <~ read_int reader;; let '(file_size, reader) := p in
  p <~ read_name reader;; let '(partition, reader) := p in
  p <~ read_name reader;; let '(file_name, reader) := p in
  p <~ read_name reader;; let '(delta_name, reader) := p in
  Ok (mkEntry binary_type device_type partition_id attributes
        update_attributes block_size block_count file_offset file_size
        partition file_name delta_name, reader).

(** The loop [for i in range(entries)] of [parse_pit], [n] entries to go. *)
Fixpoint parse_entries (n : nat) (reader : bytes) : M unit :=
  match n with
  | O => ret tt
  | S n' =>
    p <- lift (parse_entry reader);;
    let '(e, reader) := p in
    modify (fun o => set_partitions (<[Partition e := e]> (partitions o)) o);;
    parse_entries n' reader
  end.

Definition PIT_MAGIC : Z := 0x12349876.

(** [PyThor.parse_pit] *)
Definition parse_pit (pit : bytes) : M unit :=
  let reader := pit in
  magic_number <- lift (unpack_I (take 4 reader));;
  let reader := drop 4 reader in
  if negb (magic_number =? PIT_MAGIC) then raise MagicMismatch
  else
    entries <- lift (unpack_I (take 4 reader));;
    let reader := drop 4 reader in
    unknown <- lift (decode_utf8 (take 8 reader));;
    let reader := drop 8 reader in
    project <- lift (decode_utf8 (take 8 reader));;
    let reader := drop 8 reader in
    reserved <- lift (unpack_i (take 4 reader));;
    let reader := drop 4 reader in
    parse_entries (Z.to_nat entries) reader.

(** [math.ceil(size / 500)]: the quotient is a float, exact enough for
    every 32-bit [size] for the ceiling to be the integer one. *)
Definition pit_blocks (size : Z) : Z := (size + 499) / 500.

(** The loop [for i in range(blocks)] of [get_pit], [n] blocks to go. *)
Fixpoint get_pit_blocks (n : nat) (i : Z) (pit_buf : bytes) : M bytes :=
  match n with
  | O => ret pit_buf
  | S n' =>
    let buf := bytearray 1024 in
    buf <- lift (pack 0x65 0 buf);;
    buf <- lift (pack 0x02 4 buf);;
    buf <- lift (pack i 8 buf);;
    write buf;;
    ret_ <- read None;;
    let pit_buf :=
      slice_assign pit_buf (Z.to_nat (i * 500))
        (Z.to_nat (i * 500) + length ret_) ret_ in
    get_pit_blocks n' (i + 1) pit_buf
  end.

(** [PyThor.get_pit] *)
Definition get_pit : M bytes :=
  let buf := bytearray 1024 in
  buf <- lift (pack 0x65 0 buf);;
  buf <- lift (pack 0x01 4 buf);;
  write buf;;
  ret_ <- read None;;
  size <- lift (unpack_from_I ret_ 4);;
  let blocks := pit_blocks size in
  let pit_buf := bytearray (Z.to_nat size) in
  pit_buf <- get_pit_blocks (Z.to_nat blocks) 0 pit_buf;;
  let buf := bytearray 1024 in
  buf <- lift (pack 0x65 0 buf);;
  buf <- lift (pack 0x03 4 buf);;
  try_except (read None;; ret tt)
    (fun e =>
       match e with
       | USBError | USBTimeoutError => ret tt
       | _ => raise e
       end);;
  write buf;;
  read None;;
  parse_pit pit_buf;;
  ret pit_buf.

(** [PyThor.print_pit]: fetches the PIT when the table is empty; the tree
    it then prints is left out. *)
Definition print_pit : M unit :=
  parts <- gets partitions;;
  (if bool_decide (parts = ∅) then get_pit;; ret tt else ret tt);;
  ret tt.

(** ** Flash engine *)

(** The image: an open binary stream of known size.  [flash] rewinds it
    ([get_size]) and then only reads forward, so a read position is all
    the state it has. *)
Record stream : Type := mkStream {
  stream_size : N;
  stream_byte : N -> byte
}.

(** The nested [get_size]: [seek(0, 2); tell(); seek(0)]. *)
Definition get_size (s : stream) : Z := Z.of_N (stream_size s).

(** [stream.readinto(buf)] on a fresh [bytearray(n)], from position [pos]:
    the bytes that are left, at most [n], followed by the zeros the short
    read leaves in place; and the new position. *)
Definition readinto (s : stream) (pos : Z) (n : nat) : bytes * Z :=
  let k := Z.max 0 (Z.min (Z.of_nat n) (get_size s - pos)) in
  (((fun i => stream_byte s (Z.to_N i)) <$> seqZ pos k)
     ++ replicate (n - Z.to_nat k) x00,
   pos + k).

(** [progress_callback(...)] *)
Definition callback (e : event) : M unit :=
  fun w => (Ok tt, mkWorld (self w) (log e (usb w))).

(** [self.flashpacketsize * self.sequencesize]: the product of two
    integers; a [TypeError] while either still holds the placeholder. *)
Definition py_mul (a b : option Z) : result Z :=
  match a, b with
  | Some x, Some y => Ok (x * y)
  | _, _ => Err TypeError
  end.

(** Lines 195-201: the bytes per sequence, the number of sequences and the
    size of the final one. *)
Definition sequence_plan (fps ss : option Z) (length : Z) : result (Z * Z * Z) :=
  sequence <~ py_mul fps ss;;
  sequences <~ py_floordiv length sequence;;
  last_sequence <~ py_mod length sequence;;
  if negb (last_sequence =? 0)
  then Ok (sequence, sequences + 1, last_sequence)
  else Ok (sequence, sequences, sequence).

(** Lines 203-205: the head of the loop body.  [last] is a local variable
    that nothing binds before the loop: it is [None] until the branch of
    the final iteration assigns it, and reading it unbound raises. *)
Definition sequence_size_of (sequence sequences last_sequence i : Z)
    (last : option bool) : result (Z * bool) :=
  let last := if i + 1 =? sequences then Some true else last in
  match last with
  | None => Err (UnboundLocalError "last")
  | Some l => Ok (if l then last_sequence else sequence, l)
  end.

(** Lines 206-208: the size padded up to whole packets. *)
Definition aligned_size_of (real_size fps : Z) : result Z :=
  let aligned_size := real_size in
  r <~ py_mod real_size fps;;
  if negb (r =? 0)
  then r <~ py_mod real_size fps;; Ok (aligned_size + (fps - r))
  else Ok aligned_size.

Definition bool_int (b : bool) : Z := if b then 1 else 0.

(** Lines 226-249: the frame that closes a sequence. *)
Definition finalization_frame (e : entry) (real_size : Z) (last : bool)
    (efs_clear update_bootloader : bool) : result bytes :=
  if BinaryType e =? 1 then
    let buf := bytearray 1024 in
    buf <~ pack 0x66 0 buf;;
    buf <~ pack 0x03 4 buf;;
    buf <~ pack 0x01 8 buf;;
    buf <~ pack real_size 12 buf;;
    buf <~ pack (BinaryType e) 16 buf;;
    buf <~ pack (DeviceType e) 20 buf;;
    buf <~ pack (bool_int last) 24 buf;;
    Ok buf
  else
    let buf := bytearray 1024 in
    buf <~ pack 0x66 0 buf;;
    buf <~ pack 0x03 4 buf;;
    buf <~ pack 0x00 8 buf;;
    buf <~ pack real_size 12 buf;;
    buf <~ pack (BinaryType e) 16 buf;;
    buf <~ pack (DeviceType e) 20 buf;;
    buf <~ pack (PartitionID e) 24 buf;;
    buf <~ pack (bool_int last) 28 buf;;
    buf <~ pack (bool_int efs_clear) 32 buf;;
    buf <~ pack (bool_int update_bootloader) 36 buf;;
    Ok buf.

(** The loop [for j in range(parts)], [n] packets to go; returns the new
    position of the stream.  A wrong index in the acknowledgement is only
    logged. *)
Fixpoint flash_packets (s : stream) (fps parts : Z) (n : nat) (j pos : Z)
    : M Z :=
  match n with
  | O => ret pos
  | S n' =>
    (if fps <? 0 then raise (ValueError "negative count") else ret tt);;
    let '(buf, pos) := readinto s pos (Z.to_nat fps) in
    write buf;;
    ret_ <- read None;;
    index <- lift (index_bytes ret_ 4);;
    callback (Progress j parts);;
    flash_packets s fps parts n' (j + 1) pos
  end.

(** The loop [for i in range(sequences)], [n] sequences to go.  [fps] is
    [self.flashpacketsize], which nothing in the loop assigns. *)
Fixpoint flash_sequences (s : stream) (e : entry)
    (update_bootloader efs_clear : bool)
    (fps sequence sequences last_sequence : Z)
    (n : nat) (i : Z) (last : option bool) (pos : Z) : M unit :=
  match n with
  | O => ret tt
  | S n' =>
    p <- lift (sequence_size_of sequence sequences last_sequence i last);;
    let '(real_size, last) := p in
    aligned_size <- lift (aligned_size_of real_size fps);;
    let buf := bytearray 1024 in
    buf <- lift (pack 0x66 0 buf);;
    buf <- lift (pack 0x02 4 buf);;
    buf <- lift (pack aligned_size 8 buf);;
    write buf;;
    read None;;
    parts <- lift (py_floordiv aligned_size fps);;
    pos <- flash_packets s fps parts (Z.to_nat parts) 0 pos;;
    callback ProgressDone;;
    buf <- lift (finalization_frame e real_size last efs_clear update_bootloader);;
    write buf;;
    read (Some 120000);;
    flash_sequences s e update_bootloader efs_clear fps sequence sequences
      last_sequence n' (i + 1) (Some last) pos
  end.

(** [PyThor.flash] *)
Definition flash (s : stream) (name : pystr)
    (update_bootloader efs_clear : bool) : M unit :=
  parts <- gets partitions;;
  (if bool_decide (parts = ∅) then get_pit;; ret tt else ret tt);;
  parts <- gets partitions;;
  e <- lift (match parts !! name with
             | Some e => Ok e
             | None => Err (KeyError name)
             end);;
  let length := get_size s in
  send_total_bytes length;;
  let buf := bytearray 1024 in
  buf <- lift (pack 0x66 0 buf);;
  buf <- lift (pack 0x00 4 buf);;
  write buf;;
  read None;;
  fps <- gets flashpacketsize;;
  ss <- gets sequencesize;;
  p <- lift (sequence_plan fps ss length);;
  let '(sequence, sequences, last_sequence) := p in
  flash_sequences s e update_bootloader efs_clear (default 0 fps)
    sequence sequences last_sequence (Z.to_nat sequences) 0 None 0.

(** The sequences the loop of [flash] goes through, without the traffic:
    for each one its [real_size], [aligned_size] and [last], as lines
    195-208 compute them. *)
Record seq_info : Type := mkSeq {
  seq_real_size : Z;
  seq_aligned_size : Z;
  seq_last : bool
}.

Fixpoint plan_sequences (fps sequence sequences last_sequence : Z)
    (n : nat) (i : Z) (last : option bool) : result (list seq_info) :=
  match n with
  | O => Ok []
  | S n' =>
    p <~ sequence_size_of sequence sequences last_sequence i last;;
    let '(real_size, last) := p in
    aligned_size <~ aligned_size_of real_size fps;;
    rest <~ plan_sequences fps sequence sequences last_sequence n' (i + 1)
              (Some last);;
    Ok (mkSeq real_size aligned_size last :: rest)
  end.

Definition flash_plan (fps ss : option Z) (length : Z) : result (list seq_info) :=
  p <~ sequence_plan fps ss length;;
  let '(sequence, sequences, last_sequence) := p in
  plan_sequences (default 0 fps) sequence sequences last_sequence
    (Z.to_nat sequences) 0 None.

(** ** The public operations *)

(** The methods of a [PyThor] object that talk to the device.
    ([flash_file] is [flash] on an open file, with both flags false, when
    the file exists, and nothing otherwise.) *)
Inductive command : Type :=
| BeginSession (resume : bool)
| SendTotalBytes (size : Z)
| GetPit
| Flash (s : stream) (name : pystr) (update_bootloader efs_clear : bool)
| EndSession
| Reboot
| Shutdown
| FactoryReset
| EnableTflash
| PrintPit.

Definition run (c : command) : M unit :=
  match c with
  | BeginSession resume => begin_session resume
  | SendTotalBytes size => send_total_bytes size
  | GetPit => get_pit;; ret tt
  | Flash s name update_bootloader efs_clear =>
    flash s name update_bootloader efs_clear
  | EndSession => end_session
  | Reboot => reboot
  | Shutdown => shutdown
  | FactoryReset => factory_reset
  | EnableTflash => enable_tflash
  | PrintPit => print_pit
  end.

(** ** Frames *)

(** The offsets the code packs at. *)
Definition standard_offsets : list Z := [0; 4; 8; 12; 16; 20; 24; 28; 32; 36].

(** [packed fields buf]: [buf] is a fresh [bytearray(1024)] into which the
    [fields] (value, offset) have been packed, in this order. *)
Inductive packed : list (Z * Z) -> bytes -> Prop :=
| packed_fresh : packed [] (bytearray 1024)
| packed_pack fields buf data offset buf' :
    packed fields buf ->
    offset ∈ standard_offsets ->
    pack data offset buf = Ok buf' ->
    packed (fields ++ [(data, offset)]) buf'.

Definition covered (fields : list (Z * Z)) (i : nat) : Prop :=
  exists data offset,
    (data, offset) ∈ fields /\ offset <= Z.of_nat i < offset + 4.

(** A command frame: 1024 bytes, zero wherever no field was packed. *)
Definition command_frame (buf : bytes) : Prop :=
  exists fields,
    packed fields buf
    /\ length buf = 1024%nat
    /\ forall i, (i < 1024)%nat -> ~ covered fields i -> buf !! i = Some x00.



Definition wrote_only (ok : bytes -> Prop) (e : event) : Prop :=
  match e with
  | Wrote data => ok data
  | _ => True
  end.

(** ** Relations between the world before and after a method *)

(** The trace only grows, and what was written satisfies [ok]. *)
Definition sends (ok : bytes -> Prop) (w w' : World) : Prop :=
  exists new,
    trace (usb w') = trace (usb w) ++ new /\ Forall (wrote_only ok) new.

Definition keeps_sizes (w w' : World) : Prop :=
  flashpacketsize (self w') = flashpacketsize (self w).

(** No partition name is lost. *)
Definition keeps_names (w w' : World) : Prop :=
  forall name,
    is_Some (partitions (self w) !! name) ->
    is_Some (partitions (self w') !! name).

Definition respects {A} (R : World -> World -> Prop) (m : M A) (w : World) : Prop :=
  R w (snd (m w)).


(** The sizes stay, and what is written is a command frame or a raw
    packet of [flashpacketsize] bytes. *)
Definition streams (w w' : World) : Prop :=
  keeps_sizes w w'
  /\ sends (fun data =>
              command_frame data
              \/ exists n, flashpacketsize (self w) = Some n
                           /\ length data = Z.to_nat n) w w'.

Definition keeps_names_and_sizes (w w' : World) : Prop :=
  keeps_names w w' /\ keeps_sizes w w'.

Definition same_self (w w' : World) : Prop := self w' = self w.

(** A session at the shell: the commands are attempted one after the
    other, whatever the earlier ones raised. *)
Fixpoint attempt_all (cs : list command) (w : World) : list (result unit) * World :=
  match cs with
  | [] => ([], w)
  | c :: cs =>
    let '(r, w1) := run c w in
    let '(rs, w2) := attempt_all cs w1 in
    (r :: rs, w2)
  end.

(** The arguments a frame can carry: the size given to [send_total_bytes]
    fits 32 bits. *)
Definition fits (c : command) : Prop :=
  match c with
  | SendTotalBytes size => in_i32 size
  | _ => True
  end.

(** ** Example worlds and inputs *)

(** A connected object, before any session. *)
Definition fresh_world : World :=
  mkWorld (set_dev (Some SamsungDevice) init)
    (mkUsb true [] [Reply ODIN] []).

(** A connected object facing a device that answers the handshake with
    "XXXX". *)
Definition xxxx_world : World :=
  mkWorld (set_dev (Some SamsungDevice) init)
    (mkUsb true [] [Reply (list_byte_of_string "XXXX")] []).

(** A connected object facing a device that does not answer. *)
Definition silent_world : World :=
  mkWorld (set_dev (Some SamsungDevice) init) (mkUsb true [] [] []).

Definition recovery_entry : entry :=
  mkEntry 0 2 10 5 5 512 131072 0 0
    (str_of_string "RECOVERY") (str_of_string "recovery.img") [].

(** A started session with version-2 sizing and a one-entry partition
    table, facing a device that acknowledges the next two frames. *)
Definition session_world : World :=
  mkWorld
    (mkPyThor (Some SamsungDevice) true false (Some 1048576) (Some 30)
       {[ str_of_string "RECOVERY" := recovery_entry ]})
    (mkUsb true [] [Reply (bytearray 8); Reply (bytearray 8)] []).

(** An image of 33554432 zero bytes: one full sequence and 2097152 bytes
    more. *)
Definition image_32MiB : stream := mkStream 33554432 (fun _ => x00).

(** A 32-byte name field: "A", a space, thirty NULs. *)
Definition name_field_A_space : bytes :=
  list_byte_of_string "A " ++ bytearray 30.

(** The world [reboot] leaves behind [session_world]. *)
Definition rebooted_world : World := snd (reboot session_world).

(** A PIT with one entry, named "BOOT", whose integer fields are zero. *)
Definition boot_pit : bytes :=
  le32 PIT_MAGIC ++ le32 1 ++ bytearray 20
    ++ bytearray 36 ++ list_byte_of_string "BOOT" ++ bytearray 28
    ++ bytearray 64.

(** * Properties *)


(** ** Alignment *)

Lemma aligned_size_of_eq (real_size fps : Z) :
  fps ≠ 0 ->
  aligned_size_of real_size fps =
    Ok (if real_size mod fps =? 0 then real_size
        else real_size + (fps - real_size mod fps)).
Proof.
  intros Hfps. unfold aligned_size_of, py_mod.
  destruct (Z.eqb_spec fps 0) as [|_]; [done|]. simpl.
  destruct (Z.eqb_spec (real_size mod fps) 0) as [Hr|Hr]; simpl; [done|].
  destruct (Z.eqb_spec fps 0); done.
Qed.

(** C5: in the flash loop, for a positive [real_size] and a positive
    [flashpacketsize], [aligned_size] is computed without error, is a
    positive multiple of [flashpacketsize], exceeds [real_size] by less
    than one packet, and is [real_size] itself when that is already a
    multiple of [flashpacketsize]. *)
Theorem aligned_size_is_padded (real_size fps : Z) :
  0 < real_size -> 0 < fps ->
  exists a,
    aligned_size_of real_size fps = Ok a
    /\ (exists k, 0 < k /\ a = k * fps)
    /\ 0 <= a - real_size < fps
    /\ (real_size mod fps = 0 -> a = real_size).
Proof.
  intros Hr Hf. rewrite aligned_size_of_eq by lia.
  pose proof (Z.mod_pos_bound real_size fps Hf) as Hm.
  pose proof (Z.div_mod real_size fps ltac:(lia)) as Hd.
  assert (0 <= real_size / fps) as Hq by (apply Z.div_pos; lia).
  destruct (Z.eqb_spec (real_size mod fps) 0) as [Hz|Hz]; eexists; split; try done.
  - split; [|lia]. exists (real_size / fps). split; [|lia].
    destruct (Z.eq_dec (real_size / fps) 0) as [Hq0|]; [|lia].
    rewrite Hq0 in Hd. lia.
  - split; [|lia]. exists (real_size / fps + 1). split; lia.
Qed.

Lemma aligned_size_is_padded_witness :
  0 < 1048577 /\ 0 < 1048576 /\
  exists a,
    aligned_size_of 1048577 1048576 = Ok a
    /\ (exists k, 0 < k /\ a = k * 1048576)
    /\ 0 <= a - 1048577 < 1048576
    /\ (1048577 mod 1048576 = 0 -> a = 1048577).
Proof.
  split; [lia|]. split; [lia|].
  apply (aligned_size_is_padded 1048577 1048576); lia.
Defined.

(** ** The session gate *)

Lemma write_gate_closed (data : bytes) (w : World) :
  dev (self w) = None \/ session_started (self w) = false ->
  write data w = (Err NoSession, w).
Proof.
  intros H. unfold write, bind, gets, raise. simpl.
  destruct H as [-> | ->]; simpl; [done|].
  by rewrite andb_false_r.
Qed.

Lemma read_gate_closed (timeout : option Z) (w : World) :
  dev (self w) = None \/ session_started (self w) = false ->
  read timeout w = (Err NoSession, w).
Proof.
  intros H. unfold read, bind, gets, raise. simpl.
  destruct H as [-> | ->]; simpl; [done|].
  by rewrite andb_false_r.
Qed.

(** C6: while [session_started] is false, [write] and [read] raise the
    NoSession error and leave the object and the bus as they were: nothing
    is transferred and no session state changes. *)
Theorem gate_without_session (w : World) (data : bytes) (timeout : option Z) :
  session_started (self w) = false ->
  write data w = (Err NoSession, w) /\ read timeout w = (Err NoSession, w).
Proof.
  intros H. split; [apply write_gate_closed | apply read_gate_closed]; by right.
Qed.

Lemma gate_without_session_witness :
  session_started (self fresh_world) = false /\
  write ODIN fresh_world = (Err NoSession, fresh_world) /\
  read None fresh_world = (Err NoSession, fresh_world).
Proof.
  split; [reflexivity|].
  apply (gate_without_session fresh_world ODIN None). reflexivity.
Defined.

(** ** Trimming of the PIT names *)

Lemma lstrip_suffix (p : Z -> bool) (s : pystr) :
  exists pre, s = pre ++ lstrip p s.
Proof.
  induction s as [|c s [pre IH]]; simpl.
  - by exists [].
  - destruct (p c).
    + exists (c :: pre). simpl. by f_equal.
    + by exists [].
Qed.

Lemma lstrip_head (p : Z -> bool) (s : pystr) (c : Z) :
  head (lstrip p s) = Some c -> p c = false.
Proof.
  induction s as [|d s IH]; simpl; [done|].
  destruct (p d) eqn:Hd; [done|]. simpl. by intros [= <-].
Qed.

Lemma rstrip_prefix (p : Z -> bool) (s : pystr) :
  exists suf, s = rstrip p s ++ suf.
Proof.
  unfold rstrip. destruct (lstrip_suffix p (reverse s)) as [pre Hpre].
  exists (reverse pre).
  rewrite <- reverse_app, <- Hpre. by rewrite reverse_involutive.
Qed.

Lemma rstrip_last (p : Z -> bool) (s : pystr) (c : Z) :
  last (rstrip p s) = Some c -> p c = false.
Proof.
  unfold rstrip. rewrite last_reverse. apply lstrip_head.
Qed.

Lemma strip_ends (p : Z -> bool) (s : pystr) (c : Z) :
  head (strip p s) = Some c \/ last (strip p s) = Some c -> p c = false.
Proof.
  unfold strip. intros [H|H]; [|by eapply rstrip_last].
  destruct (rstrip_prefix p (lstrip p s)) as [suf Hsuf].
  apply (lstrip_head p s). rewrite Hsuf.
  destruct (rstrip p (lstrip p s)); [done|]. done.
Qed.

(** Whatever the field holds, a decoded name neither starts nor ends with
    a NUL: the NULs are trimmed last. *)
Lemma decode_name_no_NUL (field : bytes) (s : pystr) :
  decode_name field = Ok s -> head s ≠ Some 0 /\ last s ≠ Some 0.
Proof.
  unfold decode_name, rbind. destruct (decode_utf8 field); [|done].
  intros [= <-].
  split; intros H.
  - assert ((0 =? 0) = false) as E by (eapply strip_ends; left; exact H).
    discriminate E.
  - assert ((0 =? 0) = false) as E by (eapply strip_ends; right; exact H).
    discriminate E.
Qed.

(** C8, at the failing input: the 32-byte field "A", space, NULs decodes
    to the two-character name "A " whose last character is a space (0x20);
    the space is uncovered by the trimming of the NULs, which comes after
    the trimming of the spaces.  The entry read from such a record is
    stored under that name. *)
Theorem decode_name_keeps_space_before_NULs :
  length name_field_A_space = 32%nat
  /\ decode_name name_field_A_space = Ok [65; 32]
  /\ last [65; 32] = Some 32
  /\ (forall e rest,
        parse_entry (bytearray 36 ++ name_field_A_space ++ bytearray 64)
          = Ok (e, rest) ->
        Partition e = [65; 32]).
Proof.
  split; [reflexivity|]. split; [reflexivity|]. split; [reflexivity|].
  intros e rest. vm_compute. by intros [= <- _].
Qed.

(** ** The handshake *)

(** C4, at the failing input: when the device answers "XXXX" to "ODIN",
    [begin_session] raises the mismatch error and [session_started], set
    on entry, is still true. *)
Theorem begin_session_mismatch_leaves_session_started :
  fst (begin_session false xxxx_world)
    = Err (HandshakeMismatch (str_of_string "XXXX"))
  /\ session_started (self xxxx_world) = false
  /\ session_started (self (snd (begin_session false xxxx_world))) = true.
Proof. vm_compute. done. Qed.

(** The sibling path: on a handshake timeout the flag is reset. *)
Lemma begin_session_timeout_resets_session_started :
  fst (begin_session false silent_world) = Err SessionStartError
  /\ session_started (self (snd (begin_session false silent_world))) = false.
Proof. vm_compute. done. Qed.

(** ** Sequence accounting *)

(** C1, at the failing input: with version-2 sizing an image of 33554432
    bytes is planned as two sequences, and the first iteration of the loop
    reads [last] before anything has bound it; [flash] stops there with
    the exception, after the total-bytes and flash-begin frames. *)
Theorem flash_two_sequences_unbound_last :
  sequence_plan (Some 1048576) (Some 30) 33554432
    = Ok (31457280, 2, 2097152)
  /\ flash_plan (Some 1048576) (Some 30) 33554432
    = Err (UnboundLocalError "last")
  /\ fst (flash image_32MiB (str_of_string "RECOVERY") false false session_world)
    = Err (UnboundLocalError "last")
  /\ length (trace (usb (snd (flash image_32MiB (str_of_string "RECOVERY")
                               false false session_world)))) = 4%nat.
Proof. vm_compute. done. Qed.

(** ** The frame codec *)

Lemma Z_of_byte_range (b : byte) : 0 <= Z_of_byte b < 256.
Proof.
  unfold Z_of_byte. pose proof (Byte.to_N_bounded b). lia.
Qed.




Lemma length_le32 (v : Z) : length (le32 v) = 4%nat.
Proof. done. Qed.

Lemma length_splice (buf : bytes) (off : nat) (data : bytes) :
  (off + length data <= length buf)%nat ->
  length (splice buf off data) = length buf.
Proof.
  intros H. unfold splice.
  rewrite !length_app, length_take, length_drop. lia.
Qed.

Lemma lookup_splice_outside (buf : bytes) (off : nat) (data : bytes) (i : nat) :
  (off + length data <= length buf)%nat ->
  (i < off \/ off + length data <= i)%nat ->
  splice buf off data !! i = buf !! i.
Proof.
  intros Hlen Hi. unfold splice. destruct Hi as [Hi|Hi].
  - rewrite lookup_app_l by (rewrite length_take; lia).
    by rewrite lookup_take_lt.
  - rewrite lookup_app_r by (rewrite length_take; lia).
    rewrite length_take, Nat.min_l by lia.
    rewrite lookup_app_r by lia.
    rewrite lookup_drop. f_equal. lia.
Qed.



Lemma in_i32b_spec (v : Z) : in_i32b v = true <-> in_i32 v.
Proof. unfold in_i32b, in_i32. rewrite andb_true_iff, !Z.leb_le. done. Qed.

Lemma pack_Ok (data offset : Z) (buf : bytes) :
  in_i32 data -> 0 <= offset -> offset + 4 <= Z.of_nat (length buf) ->
  pack data offset buf = Ok (splice buf (Z.to_nat offset) (le32 data)).
Proof.
  intros Hd Ho Hlen. unfold pack.
  apply in_i32b_spec in Hd. rewrite Hd. simpl.
  destruct (Z.ltb_spec offset 0); [lia|].
  destruct (Z.ltb_spec offset 0); [lia|].
  destruct (Z.ltb_spec (Z.of_nat (length buf)) (offset + 4)); [lia|]. done.
Qed.

Lemma pack_inv (data offset : Z) (buf buf' : bytes) :
  0 <= offset ->
  pack data offset buf = Ok buf' ->
  in_i32 data
  /\ offset + 4 <= Z.of_nat (length buf)
  /\ buf' = splice buf (Z.to_nat offset) (le32 data).
Proof.
  intros Ho. unfold pack.
  destruct (in_i32b data) eqn:Hd; simpl; [|done].
  apply in_i32b_spec in Hd.
  destruct (Z.ltb_spec offset 0); [lia|].
  destruct (Z.ltb_spec offset 0); [lia|].
  destruct (Z.ltb_spec (Z.of_nat (length buf)) (offset + 4)); simpl; [done|].
  by intros [= <-].
Qed.

Lemma standard_offset_bounds (offset : Z) :
  offset ∈ standard_offsets ->
  0 <= offset <= 36 /\ offset mod 4 = 0.
Proof.
  unfold standard_offsets. rewrite !elem_of_cons, elem_of_nil.
  intros H. repeat destruct H as [->|H]; try done.
Qed.

Lemma packed_length (fields : list (Z * Z)) (buf : bytes) :
  packed fields buf -> length buf = 1024%nat.
Proof.
  induction 1 as [|fields buf data offset buf' _ IH Hoff Hpack].
  - apply length_replicate.
  - apply standard_offset_bounds in Hoff as [Hoff _].
    apply pack_inv in Hpack as (_ & Hlen & ->); [|lia].
    rewrite length_splice; [done|]. rewrite length_le32. lia.
Qed.

Lemma packed_zero_outside (fields : list (Z * Z)) (buf : bytes) (i : nat) :
  packed fields buf -> (i < 1024)%nat -> ~ covered fields i ->
  buf !! i = Some x00.
Proof.
  induction 1 as [|fields buf data offset buf' Hp IH Hoff Hpack]; intros Hi Hcov.
  - by apply lookup_replicate_2.
  - pose proof (packed_length _ _ Hp) as Hlen.
    apply standard_offset_bounds in Hoff as [Hoff _].
    apply pack_inv in Hpack as (_ & _ & ->); [|lia].
    rewrite lookup_splice_outside.
    + apply IH; [done|]. intros (d & o & Hin & Ho). apply Hcov.
      exists d, o. split; [|done]. apply elem_of_app. by left.
    + rewrite length_le32. lia.
    + rewrite length_le32.
      destruct (decide (offset <= Z.of_nat i < offset + 4)) as [Hin|Hout]; [|lia].
      exfalso. apply Hcov. exists data, offset. split; [|done].
      apply elem_of_app. right. by apply list_elem_of_singleton.
Qed.

Lemma packed_command_frame (fields : list (Z * Z)) (buf : bytes) :
  packed fields buf -> command_frame buf.
Proof.
  intros Hp. exists fields. split; [done|]. split; [by eapply packed_length|].
  intros i Hi Hc. by eapply packed_zero_outside.
Qed.


Lemma packed_extend (fields : list (Z * Z)) (buf : bytes) (data offset : Z) :
  packed fields buf -> in_i32 data -> offset ∈ standard_offsets ->
  exists buf',
    pack data offset buf = Ok buf' /\ packed (fields ++ [(data, offset)]) buf'.
Proof.
  intros Hp Hd Hoff. pose proof (packed_length _ _ Hp) as Hlen.
  pose proof (standard_offset_bounds _ Hoff) as [Hb _].
  eexists. split; [apply pack_Ok; [done|lia|lia]|].
  eapply packed_pack; [done|done|]. apply pack_Ok; [done|lia|lia].
Qed.

Ltac std_offset :=
  unfold standard_offsets;
  repeat first [apply list_elem_of_here | apply list_elem_of_further].

Ltac small_i32 :=
  unfold in_i32, i32_min, i32_max, bool_int;
  repeat match goal with |- context [if ?b then _ else _] => destruct b end;
  lia.






Lemma readinto_length (s : stream) (pos : Z) (n : nat) :
  length (fst (readinto s pos n)) = n.
Proof.
  unfold readinto. simpl.
  rewrite length_app, length_fmap, length_seqZ, length_replicate. lia.
Qed.

Lemma sequence_plan_sizes (fps ss : option Z) (length : Z) p :
  sequence_plan fps ss length = Ok p -> exists n, fps = Some n.
Proof. destruct fps as [n|]; [by exists n|done]. Qed.

(** ** Methods as steps of a relation

    Most facts about a method say that the world after it is related to
    the world before it by a relation that every elementary step respects:
    the trace only grows by frames of a given kind, no partition name is
    lost, the sizes stay.  The section proves once, for any such relation,
    that each method respects it, from what the relation grants for the
    elementary steps the method takes. *)

Section Respects.
Variable R : World -> World -> Prop.
Variable sendable : bytes -> World -> Prop.

Hypothesis R_refl : forall w, R w w.
Hypothesis R_trans : forall w1 w2 w3, R w1 w2 -> R w2 w3 -> R w1 w3.
Hypothesis R_dev_write :
  forall data w, sendable data w -> R w (snd (dev_write data w)).
Hypothesis R_dev_read : forall timeout w, R w (snd (dev_read timeout w)).
Hypothesis R_callback :
  forall e w, (forall data, e ≠ Wrote data) -> R w (snd (callback e w)).
Hypothesis sendable_frame :
  forall buf w, command_frame buf -> sendable buf w.
Hypothesis sendable_ODIN : forall w, sendable ODIN w.
Hypothesis sendable_packet :
  forall buf w n,
    flashpacketsize (self w) = Some n -> length buf = Z.to_nat n ->
    sendable buf w.
Hypothesis R_keeps_sizes : forall w w', R w w' -> keeps_sizes w w'.
Hypothesis R_set_session_started :
  forall b w, R w (with_self (set_session_started b) w).
Hypothesis R_set_sizes :
  forall fps ss w, R w (with_self (set_sizes fps ss) w).
Hypothesis R_set_t_flash_enabled :
  forall b w, R w (with_self (set_t_flash_enabled b) w).
Hypothesis R_insert :
  forall e w,
    R w (with_self
           (fun o => set_partitions (<[Partition e := e]> (partitions o)) o) w).
Hypothesis R_unset_dev : forall w, R w (with_self (set_dev None) w).
Hypothesis R_clear_partitions : forall w, R w (with_self (set_partitions ∅) w).

Lemma respects_ret {A} (a : A) w : respects R (ret a) w.
Proof. apply R_refl. Qed.

Lemma respects_raise {A} e w : respects R (raise (A := A) e) w.
Proof. apply R_refl. Qed.

Lemma respects_lift {A} (r : result A) w : respects R (lift r) w.
Proof. apply R_refl. Qed.

Lemma respects_bind {A B} (m : M A) (k : A -> M B) w :
  respects R m w ->
  (forall a w1, R w w1 -> respects R (k a) w1) ->
  respects R (bind m k) w.
Proof.
  unfold respects, bind. intros Hm Hk.
  destruct (m w) as [[a|e] w1]; simpl in *; [|done].
  eapply R_trans; [exact Hm|]. by apply Hk.
Qed.

Lemma respects_bind_lift {A B} (r : result A) (k : A -> M B) w :
  (forall a, r = Ok a -> respects R (k a) w) ->
  respects R (bind (lift r) k) w.
Proof.
  unfold respects, bind, lift. intros Hk.
  destruct r as [a|e]; simpl; [by apply Hk|apply R_refl].
Qed.

Lemma respects_bind_gets {A B} (f : PyThor -> A) (k : A -> M B) w :
  respects R (k (f (self w))) w ->
  respects R (bind (gets f) k) w.
Proof. done. Qed.

Lemma respects_try_except {A} (m : M A) (h : pyerr -> M A) w :
  respects R m w ->
  (forall e w1, R w w1 -> respects R (h e) w1) ->
  respects R (try_except m h) w.
Proof.
  unfold respects, try_except. intros Hm Hh.
  destruct (m w) as [[a|e] w1]; simpl in *; [done|].
  eapply R_trans; [exact Hm|]. by apply Hh.
Qed.

Lemma respects_write data w :
  sendable data w -> respects R (write data) w.
Proof.
  intros Hs. unfold write. apply respects_bind_gets, respects_bind_gets.
  destruct (_ && _); [by apply R_dev_write|apply R_refl].
Qed.

Lemma respects_read timeout w : respects R (read timeout) w.
Proof.
  unfold read. apply respects_bind_gets, respects_bind_gets.
  destruct (_ && _); [|apply R_refl].
  apply respects_bind; [apply R_dev_read|]. intros. apply R_refl.
Qed.

(** The frame under construction is a command frame. *)
Ltac packed_chain :=
  first
    [ apply packed_fresh
    | eapply packed_pack; [ | | eassumption ]; [ packed_chain | std_offset ] ].

Ltac frame_ok :=
  apply sendable_frame; eapply packed_command_frame; packed_chain.

Ltac rstep :=
  lazymatch goal with
  | |- respects _ (bind (lift _) _) _ =>
    apply respects_bind_lift; intros ? ?
  | |- respects _ (bind (gets _) _) _ => apply respects_bind_gets
  | |- respects _ (bind (write _) _) _ =>
    apply respects_bind; [apply respects_write; frame_ok | intros _ ? ?]
  | |- respects _ (bind (read _) _) _ =>
    apply respects_bind; [apply respects_read | intros ? ? ?]
  | |- respects _ (bind (modify _) _) _ =>
    apply respects_bind; [ | intros _ ? ?]
  | |- respects _ (ret _) _ => apply respects_ret
  | |- respects _ (raise _) _ => apply respects_raise
  | |- respects _ (lift _) _ => apply respects_lift
  | |- respects _ (write _) _ => apply respects_write; frame_ok
  | |- respects _ (read _) _ => apply respects_read
  end.

Lemma respects_send_total_bytes size w :
  respects R (send_total_bytes size) w.
Proof. unfold send_total_bytes. repeat rstep. Qed.

Lemma respects_end_session w : respects R end_session w.
Proof. unfold end_session. repeat rstep. Qed.

Lemma respects_factory_reset w : respects R factory_reset w.
Proof. unfold factory_reset. repeat rstep. Qed.

Lemma respects_enable_tflash w : respects R enable_tflash w.
Proof. unfold enable_tflash. repeat rstep. apply R_set_t_flash_enabled. Qed.

Lemma respects_shutdown w : respects R shutdown w.
Proof.
  unfold shutdown. repeat rstep; [apply R_unset_dev|].
  apply R_clear_partitions.
Qed.

Lemma respects_reboot w : respects R reboot w.
Proof.
  unfold reboot. apply respects_bind; [apply respects_end_session|].
  intros _ w1 _. repeat rstep; [apply R_unset_dev|].
  apply R_clear_partitions.
Qed.

Lemma respects_begin_session resume w :
  respects R (begin_session resume) w.
Proof.
  unfold begin_session.
  apply respects_bind; [apply R_set_session_started|]. intros _ w1 _.
  apply respects_bind.
  - destruct resume; simpl; [apply respects_ret|].
    apply respects_bind.
    + apply respects_try_except.
      * apply respects_bind; [apply respects_write, sendable_ODIN|].
        intros. apply respects_read.
      * intros e w2 _. destruct e; try apply respects_raise.
        apply respects_bind; [apply R_set_session_started|].
        intros. apply respects_raise.
    + intros ret_ w2 _. rstep.
      destruct (bool_decide _); repeat rstep.
  - intros _ w2 _. repeat rstep.
    apply respects_bind; [destruct (_ || _); apply R_set_sizes|].
    intros _ w5 _. repeat rstep.
    destruct (flashpacketsize (self w5)); [|done]. repeat rstep.
Qed.

Lemma respects_parse_entries n : forall reader w,
  respects R (parse_entries n reader) w.
Proof.
  induction n as [|n IH]; intros reader w; simpl; [apply respects_ret|].
  rstep. destruct a as [e reader'].
  apply respects_bind; [apply R_insert|]. intros. apply IH.
Qed.

Lemma respects_parse_pit pit w : respects R (parse_pit pit) w.
Proof.
  unfold parse_pit. rstep. destruct (negb _); [rstep|].
  repeat rstep. apply respects_parse_entries.
Qed.

Lemma respects_get_pit_blocks n : forall i pit_buf w,
  respects R (get_pit_blocks n i pit_buf) w.
Proof.
  induction n as [|n IH]; intros i pit_buf w; simpl; [apply respects_ret|].
  repeat rstep. apply IH.
Qed.

Lemma respects_get_pit w : respects R get_pit w.
Proof.
  unfold get_pit. repeat rstep.
  apply respects_bind; [apply respects_get_pit_blocks|].
  intros pit_buf w3 _. repeat rstep.
  apply respects_bind.
  { apply respects_try_except; [repeat rstep|].
    intros e w4 _. destruct e; rstep. }
  intros _ w4 _. repeat rstep.
  apply respects_bind; [apply respects_parse_pit|]. intros. rstep.
Qed.

(** [flashpacketsize] is still what it was at [w]. *)
Ltac sizes_kept :=
  repeat match goal with
         | H : R _ _ |- _ => apply R_keeps_sizes in H; unfold keeps_sizes in H
         end;
  congruence.

Lemma respects_flash_packets s fps parts n : forall j pos w,
  flashpacketsize (self w) = Some fps ->
  respects R (flash_packets s fps parts n j pos) w.
Proof.
  induction n as [|n IH]; intros j pos w Hfps; simpl; [apply respects_ret|].
  apply respects_bind; [destruct (fps <? 0); rstep|]. intros _ w1 HR1.
  apply respects_bind.
  { apply respects_write, (sendable_packet _ _ fps); [sizes_kept|].
    exact (readinto_length s pos (Z.to_nat fps)). }
  intros _ w2 HR2. repeat rstep.
  apply respects_bind; [by apply R_callback|]. intros _ w4 HR4.
  apply IH. sizes_kept.
Qed.

Lemma finalization_frame_sendable e real_size last efs_clear update_bootloader
    buf w :
  finalization_frame e real_size last efs_clear update_bootloader = Ok buf ->
  sendable buf w.
Proof.
  unfold finalization_frame. intros H.
  destruct (BinaryType e =? 1);
    repeat match type of H with
           | rbind ?r _ = Ok _ =>
             let E := fresh "E" in
             destruct r eqn:E; simpl in H; [|discriminate H]
           end;
    injection H as <-; frame_ok.
Qed.

Lemma respects_flash_sequences s e update_bootloader efs_clear fps sequence
    sequences last_sequence n : forall i last pos w,
  flashpacketsize (self w) = Some fps ->
  respects R
    (flash_sequences s e update_bootloader efs_clear fps sequence sequences
       last_sequence n i last pos) w.
Proof.
  induction n as [|n IH]; intros i last pos w Hfps; simpl;
    [apply respects_ret|].
  rstep. destruct a as [real_size last']. repeat rstep.
  apply respects_bind; [apply respects_flash_packets; sizes_kept|].
  intros pos' w3 HR3.
  apply respects_bind; [by apply R_callback|]. intros _ w4 HR4. rstep.
  apply respects_bind.
  { eapply respects_write, finalization_frame_sendable. eassumption. }
  intros _ w5 HR5. rstep. apply IH. sizes_kept.
Qed.

Lemma respects_flash s name update_bootloader efs_clear w :
  respects R (flash s name update_bootloader efs_clear) w.
Proof.
  unfold flash. rstep.
  apply respects_bind.
  { destruct (bool_decide _); [|rstep].
    apply respects_bind; [apply respects_get_pit|]. intros. rstep. }
  intros _ w1 _. repeat rstep.
  apply respects_bind; [apply respects_send_total_bytes|].
  intros _ w2 _. repeat rstep.
  match goal with
  | Hp : sequence_plan _ _ _ = Ok ?p |- _ =>
    destruct (sequence_plan_sizes _ _ _ _ Hp) as [fps Hfps];
    destruct p as [[sequence sequences] last_sequence]
  end.
  apply respects_flash_sequences. by rewrite Hfps.
Qed.

Lemma respects_print_pit w : respects R print_pit w.
Proof.
  unfold print_pit. rstep.
  apply respects_bind; [|intros; rstep].
  destruct (bool_decide _); [|rstep].
  apply respects_bind; [apply respects_get_pit|]. intros. rstep.
Qed.

Lemma respects_run c w : respects R (run c) w.
Proof.
  destruct c; simpl.
  - apply respects_begin_session.
  - apply respects_send_total_bytes.
  - apply respects_bind; [apply respects_get_pit|]. intros. rstep.
  - apply respects_flash.
  - apply respects_end_session.
  - apply respects_reboot.
  - apply respects_shutdown.
  - apply respects_factory_reset.
  - apply respects_enable_tflash.
  - apply respects_print_pit.
Qed.

End Respects.

(** ** The elementary steps and the relations *)

Lemma dev_write_self data w : self (snd (dev_write data w)) = self w.
Proof. unfold dev_write. by destruct (write_script (usb w)) as [|[] ?]. Qed.

Lemma dev_read_self timeout w : self (snd (dev_read timeout w)) = self w.
Proof. unfold dev_read. by destruct (read_script (usb w)) as [|[] ?]. Qed.

Lemma sends_refl ok w : sends ok w w.
Proof. exists []. by rewrite app_nil_r. Qed.




Lemma sends_dev_read ok timeout w : sends ok w (snd (dev_read timeout w)).
Proof.
  unfold dev_read.
  destruct (read_script (usb w)) as [|[] ?]; simpl;
    exists [ReadCall timeout]; split; done || by apply Forall_singleton.
Qed.

Lemma sends_callback ok e w :
  (forall data, e ≠ Wrote data) -> sends ok w (snd (callback e w)).
Proof.
  intros He. exists [e]. split; [done|]. apply Forall_singleton.
  destruct e; simpl; [by destruct (He data)|done..].
Qed.

Lemma sends_with_self ok f w : sends ok w (with_self f w).
Proof. exists []. split; [by rewrite app_nil_r|constructor]. Qed.

Lemma keeps_names_insert e w :
  keeps_names w
    (with_self (fun o => set_partitions (<[Partition e := e]> (partitions o)) o) w).
Proof.
  intros name Hname. simpl.
  destruct (decide (Partition e = name)) as [->|Hne].
  - rewrite lookup_insert_eq. by eexists.
  - by rewrite lookup_insert_ne.
Qed.

(** The obligations of [Respects] that only need the relation to look at
    a part of the world the step leaves alone. *)
Ltac untouched :=
  intros; unfold streams, keeps_names_and_sizes;
  repeat match goal with
         | |- _ /\ _ => split
         end;
  first
    [ apply sends_refl
    | apply sends_with_self
    | apply sends_dev_read
    | apply sends_callback; assumption
    | unfold keeps_sizes, keeps_names, same_self;
      rewrite ?dev_write_self, ?dev_read_self; intros; done ].

(** ** Frame size *)




(** ** The partition table *)

Lemma keeps_names_trans w1 w2 w3 :
  keeps_names w1 w2 -> keeps_names w2 w3 -> keeps_names w1 w3.
Proof. intros H12 H23 name Hn. by apply H23, H12. Qed.

Lemma keeps_names_and_sizes_trans w1 w2 w3 :
  keeps_names_and_sizes w1 w2 -> keeps_names_and_sizes w2 w3 ->
  keeps_names_and_sizes w1 w3.
Proof.
  intros [N1 S1] [N2 S2]. split; [by eapply keeps_names_trans|].
  unfold keeps_sizes in *. congruence.
Qed.

Lemma bind_Ok {A B} (m : M A) (k : A -> M B) w b w' :
  bind m k w = (Ok b, w') ->
  exists a w1, m w = (Ok a, w1) /\ k a w1 = (Ok b, w').
Proof.
  unfold bind. destruct (m w) as [[a|e] w1]; [|done].
  intros H. by exists a, w1.
Qed.

Lemma write_Ok data w (u : unit) w' :
  write data w = (Ok u, w') ->
  session_started (self w) = true /\ self w' = self w.
Proof.
  unfold write, bind, gets, raise. simpl.
  destruct (bool_decide _); simpl; [|done].
  destruct (session_started (self w)); simpl; [|done].
  intros H. split; [done|].
  pose proof (dev_write_self data w) as Hs. by rewrite H in Hs.
Qed.

Lemma read_Ok timeout w r w' :
  read timeout w = (Ok r, w') -> self w' = self w.
Proof.
  unfold read, bind, gets, raise, ret. simpl.
  destruct (_ && _); simpl; [|done].
  pose proof (dev_read_self timeout w) as Hs.
  destruct (dev_read timeout w) as [[a|e] w1]; [|done].
  by intros [= _ <-].
Qed.

Lemma end_session_self w : self (snd (end_session w)) = self w.
Proof.
  apply (respects_end_session same_self (fun _ _ => True));
    first [ done | untouched | unfold same_self; congruence ].
Qed.

(** One step of the inversion of a successful run. *)
Ltac run_Ok H :=
  let Hm := fresh "Hm" in
  apply bind_Ok in H as (? & ? & Hm & H);
  first
    [ apply write_Ok in Hm as [? ?]
    | apply read_Ok in Hm
    | injection Hm as <- <-
    | injection Hm as _ <-
    | idtac ].

Lemma shutdown_Ok w w' :
  shutdown w = (Ok tt, w') ->
  session_started (self w') = true /\ dev (self w') = None
  /\ partitions (self w') = ∅.
Proof.
  unfold shutdown. intros H. do 5 run_Ok H.
  injection H as <-. simpl. split; [congruence|done].
Qed.

Lemma reboot_Ok w w' :
  reboot w = (Ok tt, w') ->
  session_started (self w') = true /\ dev (self w') = None
  /\ partitions (self w') = ∅.
Proof.
  unfold reboot. intros H. do 6 run_Ok H.
  injection H as <-. simpl. split; [congruence|done].
Qed.

(** C10: [parse_pit] never removes a partition name, whatever it is given
    and however it ends; neither does any command other than [reboot] and
    [shutdown] ([get_pit] and [flash] included), so entries of an earlier
    PIT fetch survive a later one; [reboot] and [shutdown], when they
    return, leave the mapping empty. *)
Theorem partitions_only_grow (c : command) (pit : bytes) (w : World) :
  keeps_names w (snd (parse_pit pit w))
  /\ (c ≠ Reboot -> c ≠ Shutdown -> keeps_names w (snd (run c w)))
  /\ (c = Reboot \/ c = Shutdown ->
      fst (run c w) = Ok tt ->
      partitions (self (snd (run c w))) = ∅).
Proof.
  split; [|split].
  - apply (respects_parse_pit keeps_names);
      first [ exact keeps_names_trans | exact keeps_names_insert | untouched ].
  - intros Hr Hs. destruct c; simpl run; try done.
    + apply (respects_begin_session keeps_names (fun _ _ => True));
        first [ exact keeps_names_trans | done | untouched ].
    + apply (respects_send_total_bytes keeps_names (fun _ _ => True));
        first [ exact keeps_names_trans | done | untouched ].
    + apply (respects_bind keeps_names);
        [exact keeps_names_trans| |by intros ? ? _ name Hn].
      apply (respects_get_pit keeps_names (fun _ _ => True));
        first [ exact keeps_names_trans | exact keeps_names_insert
              | done | untouched ].
    + apply (respects_flash keeps_names_and_sizes (fun _ _ => True));
        first [ exact keeps_names_and_sizes_trans | done
              | by intros ? ? [_ ?]
              | intros; split; [apply keeps_names_insert|done]
              | untouched ].
    + apply (respects_end_session keeps_names (fun _ _ => True));
        first [ exact keeps_names_trans | done | untouched ].
    + apply (respects_factory_reset keeps_names (fun _ _ => True));
        first [ exact keeps_names_trans | done | untouched ].
    + apply (respects_enable_tflash keeps_names (fun _ _ => True));
        first [ exact keeps_names_trans | done | untouched ].
    + apply (respects_print_pit keeps_names (fun _ _ => True));
        first [ exact keeps_names_trans | exact keeps_names_insert
              | done | untouched ].
  - intros [-> | ->] Hok; simpl run in *.
    + destruct (reboot w) as [r w'] eqn:E. simpl in *. subst r.
      by apply reboot_Ok in E as (_ & _ & ?).
    + destruct (shutdown w) as [r w'] eqn:E. simpl in *. subst r.
      by apply shutdown_Ok in E as (_ & _ & ?).
Qed.

(** ** Without a handle *)

Lemma bind_lift {A B} (r : result A) (k : A -> M B) w :
  bind (lift r) k w = match r with Ok a => k a w | Err e => (Err e, w) end.
Proof. by destruct r. Qed.

Lemma bind_Err {A B} (m : M A) (k : A -> M B) w e w' :
  m w = (Err e, w') -> bind m k w = (Err e, w').
Proof. unfold bind. by intros ->. Qed.

Lemma bind_write_unset {B} data (k : unit -> M B) w :
  dev (self w) = None -> bind (write data) k w = (Err NoSession, w).
Proof. intros Hd. apply bind_Err, write_gate_closed. by left. Qed.

(** The next [pack] of a frame under construction succeeds. *)
Ltac build_frame :=
  match goal with
  | P : packed _ ?b |- context [bind (lift (pack ?v ?o ?b)) _ _] =>
    let b' := fresh "buf" in
    let E := fresh "E" in
    let P' := fresh "P" in
    destruct (packed_extend _ b v o P) as (b' & E & P');
    [first [assumption | small_i32] | std_offset |];
    rewrite bind_lift, E; clear E
  end.

Ltac unset_frame :=
  pose proof packed_fresh; repeat build_frame; by apply bind_write_unset.

Lemma end_session_unset w :
  dev (self w) = None -> end_session w = (Err NoSession, w).
Proof. intros Hd. unfold end_session. unset_frame. Qed.

Lemma send_total_bytes_unset size w :
  in_i32 size -> dev (self w) = None ->
  send_total_bytes size w = (Err NoSession, w).
Proof. intros Hs Hd. unfold send_total_bytes. unset_frame. Qed.

Lemma factory_reset_unset w :
  dev (self w) = None -> factory_reset w = (Err NoSession, w).
Proof. intros Hd. unfold factory_reset. unset_frame. Qed.

Lemma enable_tflash_unset w :
  dev (self w) = None -> enable_tflash w = (Err NoSession, w).
Proof. intros Hd. unfold enable_tflash. unset_frame. Qed.

Lemma shutdown_unset w :
  dev (self w) = None -> shutdown w = (Err NoSession, w).
Proof. intros Hd. unfold shutdown. unset_frame. Qed.

Lemma reboot_unset w :
  dev (self w) = None -> reboot w = (Err NoSession, w).
Proof. intros Hd. unfold reboot. by apply bind_Err, end_session_unset. Qed.

Lemma get_pit_unset w :
  dev (self w) = None -> get_pit w = (Err NoSession, w).
Proof. intros Hd. unfold get_pit. unset_frame. Qed.

Lemma flash_unset s name update_bootloader efs_clear w :
  dev (self w) = None -> partitions (self w) = ∅ ->
  flash s name update_bootloader efs_clear w = (Err NoSession, w).
Proof.
  intros Hd Hp. unfold flash.
  change (bind (gets partitions) ?k w) with (k (partitions (self w)) w).
  cbv beta. rewrite Hp, bool_decide_eq_true_2 by done.
  by apply bind_Err, bind_Err, get_pit_unset.
Qed.

Lemma print_pit_unset w :
  dev (self w) = None -> partitions (self w) = ∅ ->
  print_pit w = (Err NoSession, w).
Proof.
  intros Hd Hp. unfold print_pit.
  change (bind (gets partitions) ?k w) with (k (partitions (self w)) w).
  cbv beta. rewrite Hp, bool_decide_eq_true_2 by done.
  by apply bind_Err, bind_Err, get_pit_unset.
Qed.

Lemma begin_session_unset resume w :
  dev (self w) = None ->
  begin_session resume w
    = (Err NoSession, with_self (set_session_started true) w).
Proof.
  intros Hd. unfold begin_session.
  change (bind (modify ?f) ?k w) with (k tt (with_self f w)). cbv beta.
  set (w1 := with_self (set_session_started true) w).
  assert (dev (self w1) = None) as Hd1 by done.
  destruct resume; simpl negb; cbv iota.
  - change (bind (ret tt) ?k w1) with (k tt w1). cbv beta. unset_frame.
  - apply bind_Err, bind_Err. unfold try_except.
    by rewrite bind_write_unset.
Qed.

Lemma run_unset c w :
  dev (self w) = None -> partitions (self w) = ∅ -> fits c ->
  exists w',
    run c w = (Err NoSession, w') /\ usb w' = usb w
    /\ dev (self w') = None /\ partitions (self w') = ∅.
Proof.
  intros Hd Hp Hc. destruct c; simpl run; simpl in Hc.
  - rewrite begin_session_unset by done. by eexists.
  - rewrite send_total_bytes_unset by done. by eexists.
  - erewrite bind_Err by by apply get_pit_unset. by eexists.
  - rewrite flash_unset by done. by eexists.
  - rewrite end_session_unset by done. by eexists.
  - rewrite reboot_unset by done. by eexists.
  - rewrite shutdown_unset by done. by eexists.
  - rewrite factory_reset_unset by done. by eexists.
  - rewrite enable_tflash_unset by done. by eexists.
  - rewrite print_pit_unset by done. by eexists.
Qed.

Lemma attempt_all_unset cs : forall w,
  dev (self w) = None -> partitions (self w) = ∅ -> Forall fits cs ->
  Forall (eq (Err NoSession)) (fst (attempt_all cs w))
  /\ usb (snd (attempt_all cs w)) = usb w.
Proof.
  induction cs as [|c cs IH]; intros w Hd Hp Hfit; simpl.
  - split; [constructor|done].
  - apply Forall_cons in Hfit as [Hc Hcs].
    destruct (run_unset c w Hd Hp Hc) as (w1 & -> & Hu & Hd1 & Hp1).
    destruct (IH w1 Hd1 Hp1 Hcs) as [Hall Husb].
    destruct (attempt_all cs w1) as [rs w2]. simpl in *.
    split; [by constructor|congruence].
Qed.

(** C9: with the handle unset, [write] and [read] raise the NoSession
    error whatever [session_started] is.  After a [reboot] or a [shutdown]
    that returned, [session_started] is still true and the handle is
    unset; from then on every command, [end_session] included, raises the
    NoSession error and transfers nothing, however many are tried and in
    whatever order ([connect] is not one of them). *)
Theorem no_io_after_reboot_or_shutdown (w0 w : World) (cs : list command) :
  reboot w0 = (Ok tt, w) \/ shutdown w0 = (Ok tt, w) ->
  Forall fits cs ->
  (forall w1 data timeout,
     dev (self w1) = None ->
     write data w1 = (Err NoSession, w1) /\ read timeout w1 = (Err NoSession, w1))
  /\ session_started (self w) = true
  /\ dev (self w) = None
  /\ Forall (eq (Err NoSession)) (fst (attempt_all cs w))
  /\ usb (snd (attempt_all cs w)) = usb w.
Proof.
  intros Hoff Hfit.
  assert (session_started (self w) = true /\ dev (self w) = None
          /\ partitions (self w) = ∅) as (Hs & Hd & Hp)
    by (destruct Hoff as [H|H]; [by apply reboot_Ok in H|by apply shutdown_Ok in H]).
  split.
  { intros w1 data timeout Hd1.
    split; [apply write_gate_closed|apply read_gate_closed]; by left. }
  split; [done|]. split; [done|]. by apply attempt_all_unset.
Qed.

Lemma no_io_after_reboot_or_shutdown_witness :
  (reboot session_world = (Ok tt, rebooted_world)
   \/ shutdown session_world = (Ok tt, rebooted_world))
  /\ Forall fits [EndSession; GetPit; BeginSession false; SendTotalBytes 7]
  /\ (forall w1 data timeout,
        dev (self w1) = None ->
        write data w1 = (Err NoSession, w1)
        /\ read timeout w1 = (Err NoSession, w1))
  /\ session_started (self rebooted_world) = true
  /\ dev (self rebooted_world) = None
  /\ Forall (eq (Err NoSession))
       (fst (attempt_all [EndSession; GetPit; BeginSession false; SendTotalBytes 7]
               rebooted_world))
  /\ usb (snd (attempt_all [EndSession; GetPit; BeginSession false; SendTotalBytes 7]
                 rebooted_world))
     = usb rebooted_world.
Proof.
  assert (reboot session_world = (Ok tt, rebooted_world)
          \/ shutdown session_world = (Ok tt, rebooted_world)) as H1
    by (left; vm_compute; reflexivity).
  assert (Forall fits [EndSession; GetPit; BeginSession false; SendTotalBytes 7])
    as H2
    by (repeat (apply Forall_cons; split;
                [first [exact I | unfold fits, in_i32, i32_min, i32_max; lia]|]);
        constructor).
  split; [exact H1|]. split; [exact H2|].
  exact (no_io_after_reboot_or_shutdown session_world rebooted_world _ H1 H2).
Defined.

(** ** The PIT magic *)

Lemma read_int_Err reader e : read_int reader = Err e -> e = StructError.
Proof.
  unfold read_int, unpack_i, rbind. destruct (decide _); [done|].
  by intros [= <-].
Qed.

Lemma read_name_Err reader e :
  read_name reader = Err e -> e = UnicodeDecodeError.
Proof.
  unfold read_name, decode_name, decode_utf8, rbind.
  destruct (utf8_decode_Z _); [done|]. by intros [= <-].
Qed.

Lemma parse_entry_Err reader e :
  parse_entry reader = Err e -> e = StructError \/ e = UnicodeDecodeError.
Proof.
  unfold parse_entry. intros H.
  repeat match type of H with
         | rbind ?r _ = Err _ =>
           let E := fresh "E" in
           destruct r as [[? ?]|?] eqn:E; simpl in H;
           [|injection H as <-;
             first [ left; by eapply read_int_Err
                   | right; by eapply read_name_Err ]]
         end.
  done.
Qed.

Lemma parse_entries_Err n : forall reader w e,
  fst (parse_entries n reader w) = Err e ->
  e = StructError \/ e = UnicodeDecodeError.
Proof.
  induction n as [|n IH]; intros reader w e; simpl; [done|].
  rewrite bind_lift.
  destruct (parse_entry reader) as [[en reader']|e'] eqn:E.
  - apply IH.
  - simpl. intros [= <-]. by eapply parse_entry_Err.
Qed.

(** C7: [parse_pit] raises the magic-mismatch error exactly when the
    buffer has four leading bytes and their little-endian unsigned value
    is not 0x12349876; and then nothing has changed, the partitions in
    particular. *)
Theorem parse_pit_magic (pit : bytes) (w : World) :
  (fst (parse_pit pit w) = Err MagicMismatch
   <-> exists magic, unpack_I (take 4 pit) = Ok magic /\ magic ≠ PIT_MAGIC)
  /\ (fst (parse_pit pit w) = Err MagicMismatch -> snd (parse_pit pit w) = w).
Proof.
  unfold parse_pit. rewrite bind_lift.
  destruct (unpack_I (take 4 pit)) as [magic|e0] eqn:Em.
  - destruct (Z.eqb_spec magic PIT_MAGIC) as [Heq|Hne]; simpl negb; cbv iota.
    + assert (forall e, fst ((entries <- lift (unpack_I (take 4 (drop 4 pit)));;
                  unknown <- lift (decode_utf8 (take 8 (drop 4 (drop 4 pit))));;
                  project <- lift (decode_utf8
                                     (take 8 (drop 8 (drop 4 (drop 4 pit)))));;
                  reserved <- lift (unpack_i
                     (take 4 (drop 8 (drop 8 (drop 4 (drop 4 pit))))));;
                  parse_entries (Z.to_nat entries)
                    (drop 4 (drop 8 (drop 8 (drop 4 (drop 4 pit)))))) w) = Err e ->
                e = StructError \/ e = UnicodeDecodeError) as Hrest.
      { intros e. rewrite bind_lift. unfold unpack_I at 1.
        destruct (decide _); [|simpl; intros [= <-]; by left].
        rewrite bind_lift. unfold decode_utf8 at 1.
        destruct (utf8_decode_Z _); [|simpl; intros [= <-]; by right].
        rewrite bind_lift. unfold decode_utf8 at 1.
        destruct (utf8_decode_Z _); [|simpl; intros [= <-]; by right].
        rewrite bind_lift. unfold unpack_i at 1.
        destruct (decide _); [|simpl; intros [= <-]; by left].
        apply parse_entries_Err. }
      split; [split|].
      * intros H. apply Hrest in H as [H|H]; discriminate H.
      * intros (m & [= <-] & Hm). done.
      * intros H. apply Hrest in H as [H|H]; discriminate H.
    + split; [split|]; [|done|done].
      intros _. by exists magic.
  - simpl. split; [split|].
    + intros [= ->]. unfold unpack_I in Em. destruct (decide _); done.
    + by intros (m & [=] & _).
    + done.
Qed.

Lemma parse_pit_magic_witness :
  (exists magic,
     unpack_I (take 4 (bytearray 28)) = Ok magic /\ magic ≠ PIT_MAGIC)
  /\ fst (parse_pit (bytearray 28) fresh_world) = Err MagicMismatch
  /\ snd (parse_pit (bytearray 28) fresh_world) = fresh_world.
Proof.
  assert (exists magic,
            unpack_I (take 4 (bytearray 28)) = Ok magic /\ magic ≠ PIT_MAGIC)
    as H by (exists 0; split; [reflexivity|discriminate]).
  destruct (parse_pit_magic (bytearray 28) fresh_world) as [[_ Hraise] Hsame].
  split; [exact H|]. split; [exact (Hraise H)|exact (Hsame (Hraise H))].
Defined.

(** The scenario of a one-entry PIT: the entry is stored under "BOOT",
    next to what the table already held. *)
Example parse_boot_pit :
  fst (parse_pit boot_pit session_world) = Ok tt
  /\ Partition <$> (partitions (self (snd (parse_pit boot_pit session_world)))
                    !! str_of_string "BOOT") = Some (str_of_string "BOOT")
  /\ is_Some (partitions (self (snd (parse_pit boot_pit session_world)))
              !! str_of_string "RECOVERY").
Proof. vm_compute. split; [done|]. split; [done|]. by eexists. Qed.

Lemma partitions_only_grow_witness :
  GetPit ≠ Reboot /\ GetPit ≠ Shutdown
  /\ is_Some (partitions (self session_world) !! str_of_string "RECOVERY")
  /\ is_Some (partitions (self (snd (parse_pit boot_pit session_world)))
              !! str_of_string "RECOVERY")
  /\ is_Some (partitions (self (snd (run GetPit session_world)))
              !! str_of_string "RECOVERY").
Proof.
  assert (GetPit ≠ Reboot) as H1 by discriminate.
  assert (GetPit ≠ Shutdown) as H2 by discriminate.
  assert (is_Some (partitions (self session_world) !! str_of_string "RECOVERY"))
    as H3 by (eexists; vm_compute; reflexivity).
  destruct (partitions_only_grow GetPit boot_pit session_world)
    as (Hparse & Hrun & _).
  split; [exact H1|]. split; [exact H2|]. split; [exact H3|].
  split; [exact (Hparse _ H3)|exact (Hrun H1 H2 _ H3)].
Defined.

(** ** The entries of a parsed PIT *)

Lemma le32_unsigned_range (bs : bytes) :
  0 <= le32_unsigned bs < 256 ^ Z.of_nat (length bs).
Proof.
  induction bs as [|b bs IH]; [simpl; lia|].
  change (le32_unsigned (b :: bs)) with (Z_of_byte b + 256 * le32_unsigned bs).
  pose proof (Z_of_byte_range b).
  replace (Z.of_nat (length (b :: bs))) with (Z.succ (Z.of_nat (length bs)))
    by (simpl; lia).
  rewrite Z.pow_succ_r by lia. lia.
Qed.

Lemma read_int_i32 reader v rest : read_int reader = Ok (v, rest) -> in_i32 v.
Proof.
  unfold read_int, unpack_i, rbind.
  destruct (decide _) as [Hlen|]; [|done]. intros [= <- _].
  pose proof (le32_unsigned_range (take 4 reader)) as Hu. rewrite Hlen in Hu.
  unfold le32_signed, in_i32, i32_min, i32_max.
  destruct (Z.ltb_spec (le32_unsigned (take 4 reader)) (2 ^ 31)); lia.
Qed.

(** The integers [flash] packs from an entry of the table fit 32 bits:
    they were read as such. *)
Lemma parse_entry_i32 reader e rest :
  parse_entry reader = Ok (e, rest) ->
  in_i32 (BinaryType e) /\ in_i32 (DeviceType e) /\ in_i32 (PartitionID e).
Proof.
  unfold parse_entry. intros H.
  repeat match type of H with
         | rbind ?r _ = Ok _ =>
           let E := fresh "E" in
           destruct r as [[? ?]|?] eqn:E; simpl in H; [|discriminate H]
         end.
  injection H as <- _. simpl.
  repeat split; by eapply read_int_i32.
Qed.

(** ** The sequence plan in general *)

(** An image that fits one sequence is planned as that one, final,
    sequence. *)
Lemma flash_plan_one_sequence (fps ss length : Z) :
  0 < fps -> 0 < ss -> 0 < length <= fps * ss ->
  exists a,
    aligned_size_of length fps = Ok a
    /\ flash_plan (Some fps) (Some ss) length = Ok [mkSeq length a true].
Proof.
  intros Hf Hs Hl.
  pose proof (aligned_size_of_eq length fps ltac:(lia)) as Ha.
  eexists. split; [exact Ha|].
  assert (0 < fps * ss) as Hseq by nia.
  unfold flash_plan, sequence_plan, py_mul, py_floordiv, py_mod. simpl rbind.
  destruct (Z.eqb_spec (fps * ss) 0) as [|_]; [lia|]. simpl rbind.
  destruct (Z.eqb_spec (fps * ss) 0) as [|_]; [lia|]. simpl rbind.
  destruct (Z.eq_dec length (fps * ss)) as [->|Hne].
  - rewrite Z_mod_same_full, Z_div_same_full by lia. simpl.
    unfold sequence_size_of. simpl. by rewrite Ha.
  - rewrite Z.mod_small, Z.div_small by lia.
    destruct (Z.eqb_spec length 0) as [|_]; [lia|]. simpl.
    unfold sequence_size_of. simpl. by rewrite Ha.
Qed.

(** A longer image needs a second sequence, and the loop stops at the
    first one, on the unbound [last]. *)
Lemma flash_plan_more_sequences (fps ss length : Z) :
  0 < fps -> 0 < ss -> fps * ss < length ->
  flash_plan (Some fps) (Some ss) length = Err (UnboundLocalError "last").
Proof.
  intros Hf Hs Hl. assert (0 < fps * ss) as Hseq by nia.
  unfold flash_plan, sequence_plan, py_mul, py_floordiv, py_mod. simpl rbind.
  destruct (Z.eqb_spec (fps * ss) 0) as [|_]; [lia|]. simpl rbind.
  destruct (Z.eqb_spec (fps * ss) 0) as [|_]; [lia|]. simpl rbind.
  pose proof (Z.div_mod length (fps * ss) ltac:(lia)) as Hdm.
  pose proof (Z.mod_pos_bound length (fps * ss) Hseq) as Hm.
  assert (1 <= length / (fps * ss)) as Hq
    by (apply Z.div_le_lower_bound; lia).
  set (q := length / (fps * ss)) in *. set (r := length mod (fps * ss)) in *.
  assert (forall sequences last_sequence,
            2 <= sequences ->
            plan_sequences fps (fps * ss) sequences last_sequence
              (Z.to_nat sequences) 0 None = Err (UnboundLocalError "last"))
    as Hloop.
  { intros sequences last_sequence Hn.
    destruct (Z.to_nat sequences) as [|n] eqn:En; [lia|]. simpl.
    unfold sequence_size_of.
    destruct (Z.eqb_spec (0 + 1) sequences); [lia|]. done. }
  destruct (Z.eqb_spec r 0) as [Hr|Hr]; simpl.
  - apply Hloop. nia.
  - apply Hloop. lia.
Qed.

(** ** The handshake in general *)

Lemma bind_run {A B} (m : M A) (k : A -> M B) w a w1 :
  m w = (Ok a, w1) -> bind m k w = k a w1.
Proof. unfold bind. by intros ->. Qed.

Lemma try_except_Ok {A} (m : M A) (h : pyerr -> M A) w a w1 :
  m w = (Ok a, w1) -> try_except m h w = (Ok a, w1).
Proof. unfold try_except. by intros ->. Qed.

(** "ODIN" is delivered and the device answers [data]. *)
Lemma handshake_exchange w h data rest :
  dev (self w) = Some h -> session_started (self w) = true ->
  write_script (usb w) = [] ->
  read_script (usb w) = Reply data :: rest ->
  exists w',
    bind (write ODIN) (fun _ => read None) w = (Ok (take 4096 data), w')
    /\ self w' = self w.
Proof.
  intros Hd Hs Hw Hr. destruct w as [o u], o, u. simpl in *. subst.
  by eexists.
Qed.

(** Whenever the device answers the handshake with a text other than
    "LOKE", [begin_session] raises the mismatch error and leaves
    [session_started] true. *)
Lemma begin_session_mismatch w h data rest got :
  dev (self w) = Some h ->
  write_script (usb w) = [] ->
  read_script (usb w) = Reply data :: rest ->
  decode_utf8 (take 4096 data) = Ok got -> got ≠ LOKE ->
  fst (begin_session false w) = Err (HandshakeMismatch got)
  /\ session_started (self (snd (begin_session false w))) = true.
Proof.
  intros Hd Hw Hr Hdec Hne. unfold begin_session.
  change (bind (modify ?f) ?k w) with (k tt (with_self f w)). cbv beta.
  set (w1 := with_self (set_session_started true) w).
  destruct (handshake_exchange w1 h data rest) as (w2 & Hx & Hself); try done.
  erewrite bind_Err.
  - split; [reflexivity|]. simpl. by rewrite Hself.
  - change (negb false) with true. cbv iota.
    erewrite bind_run by (apply try_except_Ok; exact Hx).
    rewrite bind_lift, Hdec, bool_decide_eq_true_2 by done.
    reflexivity.
Qed.

(** Whenever the device does not answer the handshake in time,
    [begin_session] raises the session-start error and resets
    [session_started]. *)
Lemma begin_session_timeout w h :
  dev (self w) = Some h ->
  write_script (usb w) = [] ->
  read_script (usb w) = [] ->
  fst (begin_session false w) = Err SessionStartError
  /\ session_started (self (snd (begin_session false w))) = false.
Proof.
  intros Hd Hw Hr. unfold begin_session.
  change (bind (modify ?f) ?k w) with (k tt (with_self f w)). cbv beta.
  erewrite bind_Err; cycle 1.
  { change (negb false) with true. cbv iota. apply bind_Err.
    destruct w as [o u], o, u. simpl in *. subst. reflexivity. }
  split; reflexivity.
Qed.
